(** * Odometer: dead reckoning for a differential-drive robot

    A shallow embedding of [src/Odometer/Odometer.cpp].

    Numbers.  The C++ type [double] (and [float]) is modelled by the real
    numbers of the Standard Library: arithmetic is exact, and rounding,
    infinities and NaN are outside the model.  The libm functions [sin],
    [cos] and [atan2] are the mathematical ones; on the negative x axis,
    where libm's [atan2] goes by the sign of a zero that a real number does
    not carry, [atan2] takes the upper value [PI] and [atan2_lower] the
    lower value [-PI].  The integer types [long]
    and [unsigned long] are 32 bits wide, as on every Arduino board, and
    their wrap-around is written out with [to_long] and [to_ulong].

    State.  The object's member variables are the record [Odometer]; the
    collaborators (the encoder objects the odometer points to, the
    millisecond clock and the serial port) are the record [World].  A member
    function is a computation in the state monad [M] over both. *)

From Stdlib Require Import ZArith Reals Lra Lia Psatz List String.
Import ListNotations.

Set Implicit Arguments.

(** ** Machine integers *)

Module Int32.

Definition modulus : Z := 2 ^ 32.
Definition half_modulus : Z := 2 ^ 31.

(** An [unsigned long]: reduction modulo 2^32. *)
Definition to_ulong (z : Z) : Z := z mod modulus.

(** A [long]: the two's complement representative in [-2^31, 2^31). *)
Definition to_long (z : Z) : Z :=
  (z + half_modulus) mod modulus - half_modulus.

End Int32.
Import Int32.

(** ** Real-valued library functions *)

Module LibM.

Open Scope R_scope.

(** The two-argument arctangent of libm, [atan2 y x]: the angle of the
    point [(x, y)], with [atan2 0 0 = 0]. *)
Definition atan2 (y x : R) : R :=
  if Rlt_dec 0 x then atan (y / x)
  else if Rlt_dec x 0 then
    if Rle_dec 0 y then atan (y / x) + PI else atan (y / x) - PI
  else if Rlt_dec 0 y then PI / 2
  else if Rlt_dec y 0 then - (PI / 2)
  else 0.


(** Arduino's macro
    [constrain(amt,low,high) ((amt)<(low)?(low):((amt)>(high)?(high):(amt)))]. *)
Definition constrain (amt low high : R) : R :=
  if Rlt_dec amt low then low
  else if Rgt_dec amt high then high
  else amt.

(** The words of the specification for [constrain]: a value clamped to
    the interval from [lo] to [hi]. *)
Definition clamped (lo hi x : R) : R := Rmax lo (Rmin hi x).

End LibM.
Import LibM.

(** ** The collaborators *)

(** The two slots of the per-wheel arrays ([encoder[2]], [wheelDiameter[2]],
    ...): index 0 and index 1. *)
Inductive index : Type := I0 | I1.

Definition index_eqb (i j : index) : bool :=
  match i, j with
  | I0, I0 | I1, I1 => true
  | _, _ => false
  end.

(** A two-element array and the assignment [a[i] = v]. *)
Definition array (T : Type) : Type := index -> T.

Definition store {T : Type} (a : array T) (i : index) (v : T) : array T :=
  fun j => if index_eqb i j then v else a j.

(** A [WheelEncoder] object.
    Modelled from the spec: WheelEncoder.h is missing; an encoder exposes
    its cumulative signed tick count through [read()], [write(0)] resets it,
    and [getCountsPerRevolution()] is a constant of the encoder. *)
Record WheelEncoder : Type := {
  count : Z;
  countsPerRev : Z
}.

(** What [Serial.print] and [Serial.println] were given. *)
Inductive printable : Type :=
  | PStr (s : string)
  | PDouble (r : R)
  | PLong (z : Z).

Inductive serial_op : Type :=
  | Print (p : printable)
  | Println (p : printable).

(** Encoder objects live at addresses, so that two slots of the odometer may
    point to one encoder.  The clock is the sequence of values that
    successive calls of [millis()] return, with the number of calls made so
    far. *)
Record World : Type := {
  encoders : nat -> WheelEncoder;
  clock : nat -> Z;
  clock_reads : nat;
  serial : list serial_op
}.

(** The value the next call of [millis()] returns. *)
Definition now (w : World) : Z := to_ulong (clock w (clock_reads w)).

Definition write_encoder (p : nat) (v : Z) (w : World) : World :=
  {| encoders := fun q =>
       if Nat.eqb p q
       then {| count := v; countsPerRev := countsPerRev (encoders w q) |}
       else encoders w q;
     clock := clock w;
     clock_reads := clock_reads w;
     serial := serial w |}.

Definition advance_clock (w : World) : World :=
  {| encoders := encoders w;
     clock := clock w;
     clock_reads := S (clock_reads w);
     serial := serial w |}.

Definition emit (op : serial_op) (w : World) : World :=
  {| encoders := encoders w;
     clock := clock w;
     clock_reads := clock_reads w;
     serial := serial w ++ [op] |}.

(** ** The member variables *)

(** Modelled from the spec: Odometer.h is missing; the members are the
    names Odometer.cpp assigns, with the types of the values assigned to
    them. *)
Record Odometer : Type := {
  encoder : array nat;
  wheelDiameter : array R;
  countsPerRevolution : array Z;
  distancePerCount : array R;
  encodeFactor : array Z;
  trackWidth : R;
  X : R;
  Y : R;
  heading : R;
  goalX : R;
  goalY : R;
  vLeft : R;
  vRight : R;
  omega : R;
  previousLeftEncoderCounts : Z;
  previousRightEncoderCounts : Z;
  previousUpdateTime : Z
}.

Module Set_.

Definition encoder v (o : Odometer) : Odometer :=
  let 'Build_Odometer _ b c d e f g h i j k l m n p q r := o in
  Build_Odometer v b c d e f g h i j k l m n p q r.
Definition wheelDiameter v (o : Odometer) : Odometer :=
  let 'Build_Odometer a _ c d e f g h i j k l m n p q r := o in
  Build_Odometer a v c d e f g h i j k l m n p q r.
Definition countsPerRevolution v (o : Odometer) : Odometer :=
  let 'Build_Odometer a b _ d e f g h i j k l m n p q r := o in
  Build_Odometer a b v d e f g h i j k l m n p q r.
Definition distancePerCount v (o : Odometer) : Odometer :=
  let 'Build_Odometer a b c _ e f g h i j k l m n p q r := o in
  Build_Odometer a b c v e f g h i j k l m n p q r.
Definition encodeFactor v (o : Odometer) : Odometer :=
  let 'Build_Odometer a b c d _ f g h i j k l m n p q r := o in
  Build_Odometer a b c d v f g h i j k l m n p q r.
Definition trackWidth v (o : Odometer) : Odometer :=
  let 'Build_Odometer a b c d e _ g h i j k l m n p q r := o in
  Build_Odometer a b c d e v g h i j k l m n p q r.
Definition X v (o : Odometer) : Odometer :=
  let 'Build_Odometer a b c d e f _ h i j k l m n p q r := o in
  Build_Odometer a b c d e f v h i j k l m n p q r.
Definition Y v (o : Odometer) : Odometer :=
  let 'Build_Odometer a b c d e f g _ i j k l m n p q r := o in
  Build_Odometer a b c d e f g v i j k l m n p q r.
Definition heading v (o : Odometer) : Odometer :=
  let 'Build_Odometer a b c d e f g h _ j k l m n p q r := o in
  Build_Odometer a b c d e f g h v j k l m n p q r.
Definition goalX v (o : Odometer) : Odometer :=
  let 'Build_Odometer a b c d e f g h i _ k l m n p q r := o in
  Build_Odometer a b c d e f g h i v k l m n p q r.
Definition goalY v (o : Odometer) : Odometer :=
  let 'Build_Odometer a b c d e f g h i j _ l m n p q r := o in
  Build_Odometer a b c d e f g h i j v l m n p q r.
Definition vLeft v (o : Odometer) : Odometer :=
  let 'Build_Odometer a b c d e f g h i j k _ m n p q r := o in
  Build_Odometer a b c d e f g h i j k v m n p q r.
Definition vRight v (o : Odometer) : Odometer :=
  let 'Build_Odometer a b c d e f g h i j k l _ n p q r := o in
  Build_Odometer a b c d e f g h i j k l v n p q r.
Definition omega v (o : Odometer) : Odometer :=
  let 'Build_Odometer a b c d e f g h i j k l m _ p q r := o in
  Build_Odometer a b c d e f g h i j k l m v p q r.
Definition previousLeftEncoderCounts v (o : Odometer) : Odometer :=
  let 'Build_Odometer a b c d e f g h i j k l m n _ q r := o in
  Build_Odometer a b c d e f g h i j k l m n v q r.
Definition previousRightEncoderCounts v (o : Odometer) : Odometer :=
  let 'Build_Odometer a b c d e f g h i j k l m n p _ r := o in
  Build_Odometer a b c d e f g h i j k l m n p v r.
Definition previousUpdateTime v (o : Odometer) : Odometer :=
  let 'Build_Odometer a b c d e f g h i j k l m n p q _ := o in
  Build_Odometer a b c d e f g h i j k l m n p q v.

End Set_.

(** ** The state monad of member functions *)

Definition M (A : Type) : Type := Odometer -> World -> A * Odometer * World.

Definition ret {A : Type} (a : A) : M A := fun o w => (a, o, w).

Definition bind {A B : Type} (m : M A) (k : A -> M B) : M B :=
  fun o w => let '(a, o1, w1) := m o w in k a o1 w1.

Declare Scope odo_scope.
Delimit Scope odo_scope with odo.
Notation "x <- m ;; k" := (bind m (fun x => k))
  (at level 61, m at next level, right associativity) : odo_scope.
Notation "' pat <- m ;; k" := (bind m (fun x => match x with pat => k end))
  (at level 61, pat pattern, m at next level, right associativity) : odo_scope.
Notation "m ;; k" := (bind m (fun _ => k))
  (at level 61, right associativity) : odo_scope.
Open Scope odo_scope.

(** Reading a member, and assigning to one. *)
Definition member {A : Type} (f : Odometer -> A) : M A := fun o w => (f o, o, w).

Definition assign {A : Type} (set : A -> Odometer -> Odometer) (v : A) : M unit :=
  fun o w => (tt, set v o, w).

(** The state a computation leaves, and the value it returns. *)
Definition self_after {A : Type} (m : M A) (o : Odometer) (w : World) : Odometer :=
  snd (fst (m o w)).

Definition world_after {A : Type} (m : M A) (o : Odometer) (w : World) : World :=
  snd (m o w).

Definition result {A : Type} (m : M A) (o : Odometer) (w : World) : A :=
  fst (fst (m o w)).

Definition when (b : bool) (m : M unit) : M unit := if b then m else ret tt.

(** [encoder[i]->read()], [encoder[i]->write(v)] and
    [encoder[i]->getCountsPerRevolution()]. *)
Definition encoder_read (i : index) : M Z :=
  fun o w => (count (encoders w (encoder o i)), o, w).

Definition encoder_write (i : index) (v : Z) : M unit :=
  fun o w => (tt, o, write_encoder (encoder o i) v w).

Definition encoder_getCountsPerRevolution (i : index) : M Z :=
  fun o w => (countsPerRev (encoders w (encoder o i)), o, w).

Definition millis : M Z := fun o w => (now w, o, advance_clock w).

Definition Serial_print (p : printable) : M unit :=
  fun o w => (tt, o, emit (Print p) w).

Definition Serial_println (p : printable) : M unit :=
  fun o w => (tt, o, emit (Println p) w).

(** [for(int i = 0; i < 2; i++) body]. *)
Definition for_each_wheel (body : index -> M unit) : M unit :=
  body I0 ;; body I1.

(** [a[i] = v] on an array member. *)
Definition assign_at {A : Type} (get : Odometer -> array A)
    (set : array A -> Odometer -> Odometer) (i : index) (v : A) : M unit :=
  a <- member get ;;
  assign set (store a i v).

(** The tests [a == 0] and [a != 0] on a [double]. *)
Definition Req_b (a b : R) : bool := if Req_dec_T a b then true else false.

(** ** Odometer.cpp *)

(** [Odometer::reset]: resets the encoder counts only. *)
Definition reset : M unit :=
  for_each_wheel (fun i => encoder_write i 0%Z) ;;
  assign Set_.previousLeftEncoderCounts 0%Z ;;
  assign Set_.previousRightEncoderCounts 0%Z ;;
  t <- millis ;;
  assign Set_.previousUpdateTime t.

(** [Odometer::setup]. *)
Definition setup (inEncoder : array nat) (isEncoderForward : array bool)
    (inWheelDiameter : array R) (inTrackWidth : R) : M unit :=
  for_each_wheel (fun i =>
    assign_at encoder Set_.encoder i (inEncoder i) ;;
    assign_at wheelDiameter Set_.wheelDiameter i (inWheelDiameter i) ;;
    cpr <- encoder_getCountsPerRevolution i ;;
    assign_at countsPerRevolution Set_.countsPerRevolution i cpr ;;
    d <- member (fun o => wheelDiameter o i) ;;
    c <- member (fun o => countsPerRevolution o i) ;;
    assign_at distancePerCount Set_.distancePerCount i ((PI * d) / IZR c)%R ;;
    if isEncoderForward i
    then assign_at encodeFactor Set_.encodeFactor i 1%Z
    else assign_at encodeFactor Set_.encodeFactor i (-1)%Z) ;;
  assign Set_.X 0%R ;;
  assign Set_.Y 0%R ;;
  assign Set_.heading 0%R ;;
  assign Set_.goalX 0%R ;;
  assign Set_.goalY 0%R ;;
  assign Set_.vLeft 0%R ;;
  assign Set_.vRight 0%R ;;
  assign Set_.trackWidth inTrackWidth ;;
  Serial_print (PStr "DistancePerCount[0]:  ") ;;
  dpc0 <- member (fun o => distancePerCount o I0) ;;
  Serial_println (PDouble dpc0) ;;
  Serial_print (PStr "trackWidth:  ") ;;
  tw <- member trackWidth ;;
  Serial_println (PDouble tw) ;;
  Serial_print (PStr "countsPerRevolution[0]:  ") ;;
  cpr0 <- member (fun o => countsPerRevolution o I0) ;;
  Serial_println (PLong cpr0) ;;
  reset.

(** [Odometer::setCurrentPosition]. *)
Definition setCurrentPosition (x y inHeading : R) : M unit :=
  reset ;;
  assign Set_.X x ;;
  assign Set_.Y y ;;
  assign Set_.heading inHeading.

(** [Odometer::setGoalPosition]. *)
Definition setGoalPosition (x y : R) : M unit :=
  assign Set_.goalX x ;;
  assign Set_.goalY y.

(** [Odometer::calculateDeltasCrude]; the two out-parameters are the pair
    returned. *)
Definition calculateDeltasCrude (deltaDistanceLeft deltaDistanceRight : R)
    : M (R * R) :=
  let deltaDistance := (0.5 * (deltaDistanceLeft + deltaDistanceRight))%R in
  h <- member heading ;;
  ret ((deltaDistance * cos h)%R, (deltaDistance * sin h)%R).

(** [Odometer::calculateDeltasRefined], which [update] does not call. *)
Definition calculateDeltasRefined (deltaDistanceLeft deltaDistanceRight : R)
    : M (R * R) :=
  let deltaDistance := (0.5 * (deltaDistanceLeft + deltaDistanceRight))%R in
  let deltaDiff := (deltaDistanceRight - deltaDistanceLeft)%R in
  tw <- member trackWidth ;;
  h <- member heading ;;
  ret (((tw * deltaDistance) / (2 * deltaDiff)
          * (sin ((deltaDistance / tw) + h) - sin h))%R,
       (- ((tw * deltaDistance) / (2 * deltaDiff))
          * (cos ((deltaDistance / tw) + h) - cos h))%R).

(** [Odometer::getLinearVelocity]. *)
Definition getLinearVelocity : M R :=
  l <- member vLeft ;;
  r <- member vRight ;;
  ret ((l + r) / 2.0)%R.

(** [Odometer::translateToLeftRightVelocities]; the two out-parameters
    [normLeft] and [normRight] are the pair returned. *)
Definition translateToLeftRightVelocities
    (normedLinearVelocity normedLinearAngularVelocity : R) : M (R * R) :=
  let leftVelocity := normedLinearVelocity in
  let rightVelocity := normedLinearVelocity in
  let leftVelocity := (leftVelocity - normedLinearAngularVelocity)%R in
  let rightVelocity := (rightVelocity + normedLinearAngularVelocity)%R in
  let NormalizedLeftCV := constrain leftVelocity (-1) 1 in
  let NormalizedRightCV := constrain rightVelocity (-1) 1 in
  ret (NormalizedLeftCV, NormalizedRightCV).

(** [Odometer::calculateGoalHeading]. *)
Definition calculateGoalHeading : M R :=
  gy <- member goalY ;;
  y <- member Y ;;
  gx <- member goalX ;;
  x <- member X ;;
  let calcHeading := atan2 (gy - y) (gx - x) in
  ret calcHeading.

(** [Odometer::getNormalizedHeadingError(double)]. *)
Definition getNormalizedHeadingError (requiredHeading : R) : M R :=
  h <- member heading ;;
  let headingDiff := (h - requiredHeading)%R in
  let error := (atan2 (sin headingDiff) (cos headingDiff) / PI)%R in
  ret error.

(** [Odometer::getNormalizedHeadingError()]. *)
Definition getNormalizedHeadingErrorToGoal : M R :=
  requiredHeading <- calculateGoalHeading ;;
  getNormalizedHeadingError requiredHeading.

(** [Odometer::getDistanceToGoal]. *)
Definition getDistanceToGoal : M R :=
  gx <- member goalX ;;
  x <- member X ;;
  gy <- member goalY ;;
  y <- member Y ;;
  ret (sqrt ((gx - x) ^ 2 + (gy - y) ^ 2)).

Section Update.

(** The constants [MOTOR_LEFT] and [MOTOR_RIGHT] of Motor.h, which is
    missing: the slots of the left and of the right wheel. *)
Variables MOTOR_LEFT MOTOR_RIGHT : index.

(** [Odometer::update], linked against the implementation [atan2_impl] of
    libm's [atan2]. *)
Definition update_with (atan2_impl : R -> R -> R) : M unit :=
  rawLeft <- encoder_read MOTOR_LEFT ;;
  factorLeft <- member (fun o => encodeFactor o MOTOR_LEFT) ;;
  let leftEncoderCounts := to_long (rawLeft * factorLeft) in
  rawRight <- encoder_read MOTOR_RIGHT ;;
  factorRight <- member (fun o => encodeFactor o MOTOR_RIGHT) ;;
  let rightEncoderCounts := to_long (rawRight * factorRight) in

  prevLeft <- member previousLeftEncoderCounts ;;
  let deltaLeftTicks := to_long (leftEncoderCounts - prevLeft) in
  prevRight <- member previousRightEncoderCounts ;;
  let deltaRightTicks := to_long (rightEncoderCounts - prevRight) in
  assign Set_.previousLeftEncoderCounts leftEncoderCounts ;;
  assign Set_.previousRightEncoderCounts rightEncoderCounts ;;

  currentTime <- millis ;;
  prevTime <- member previousUpdateTime ;;
  let deltaTime := to_long (to_ulong (currentTime - prevTime)) in
  assign Set_.previousUpdateTime currentTime ;;

  dpcLeft <- member (fun o => distancePerCount o MOTOR_LEFT) ;;
  let deltaDistanceLeft := (IZR deltaLeftTicks * dpcLeft)%R in
  dpcRight <- member (fun o => distancePerCount o MOTOR_RIGHT) ;;
  let deltaDistanceRight := (IZR deltaRightTicks * dpcRight)%R in

  tw <- member trackWidth ;;
  let deltaHeading := ((deltaDistanceRight - deltaDistanceLeft) / tw)%R in

  '(deltaX, deltaY) <- calculateDeltasCrude deltaDistanceLeft deltaDistanceRight ;;

  when (negb (deltaTime =? 0)%Z) (
    assign Set_.vLeft (deltaDistanceLeft * 1000.0 / IZR deltaTime)%R ;;
    assign Set_.vRight (deltaDistanceRight * 1000.0 / IZR deltaTime)%R ;;
    assign Set_.omega (deltaHeading * 1000.0 / IZR deltaTime)%R) ;;

  x <- member X ;;
  assign Set_.X (x + deltaX)%R ;;
  y <- member Y ;;
  assign Set_.Y (y + deltaY)%R ;;
  h <- member heading ;;
  assign Set_.heading (h + deltaHeading)%R ;;

  vl <- member vLeft ;;
  when (Req_b vl 0) (Serial_println (PStr "Zero left velocity")) ;;
  vr <- member vRight ;;
  when (Req_b vr 0) (Serial_println (PStr "Zero right velocity")) ;;

  h <- member heading ;;
  assign Set_.heading (atan2_impl (sin h) (cos h)) ;;

  pl <- member previousLeftEncoderCounts ;;
  pr <- member previousRightEncoderCounts ;;
  when ((pl >? 32000)%Z || (pr >? 32000)%Z) (
    Serial_println (PStr "Resetting odometers.") ;;
    reset).

(** [Odometer::update], with [atan2] for libm's [atan2]. *)
Definition update : M unit := update_with atan2.

(** The locals of [update], as functions of the state in which it is
    called. *)
Definition leftEncoderCounts (o : Odometer) (w : World) : Z :=
  to_long (count (encoders w (encoder o MOTOR_LEFT)) * encodeFactor o MOTOR_LEFT).

Definition rightEncoderCounts (o : Odometer) (w : World) : Z :=
  to_long (count (encoders w (encoder o MOTOR_RIGHT)) * encodeFactor o MOTOR_RIGHT).

Definition deltaLeftTicks (o : Odometer) (w : World) : Z :=
  to_long (leftEncoderCounts o w - previousLeftEncoderCounts o).

Definition deltaRightTicks (o : Odometer) (w : World) : Z :=
  to_long (rightEncoderCounts o w - previousRightEncoderCounts o).

Definition deltaTime (o : Odometer) (w : World) : Z :=
  to_long (to_ulong (now w - previousUpdateTime o)).

Definition deltaDistanceLeft (o : Odometer) (w : World) : R :=
  (IZR (deltaLeftTicks o w) * distancePerCount o MOTOR_LEFT)%R.

Definition deltaDistanceRight (o : Odometer) (w : World) : R :=
  (IZR (deltaRightTicks o w) * distancePerCount o MOTOR_RIGHT)%R.

Definition deltaHeading (o : Odometer) (w : World) : R :=
  ((deltaDistanceRight o w - deltaDistanceLeft o w) / trackWidth o)%R.

(** ** Sample states

    A bench robot: two encoders of 360 counts per revolution at addresses
    0 and 1, wheels of diameter 6.5, a track width of 15, and a clock that
    advances 20 ms between two readings. *)

Definition bench_slots : array nat :=
  fun i => match i with I0 => 0%nat | I1 => 1%nat end.

Definition bench_forward : array bool := fun _ => true.

Definition bench_diameters : array R := fun _ => 6.5%R.

Definition bench_world (left right start : Z) : World :=
  {| encoders := fun p =>
       {| count := if Nat.eqb p 0 then left else right; countsPerRev := 360 |};
     clock := fun n => (start + 20 * Z.of_nat n)%Z;
     clock_reads := 0;
     serial := [] |}.

(** The odometer of the bench robot at rest at the origin, last updated
    at time 1000. *)
Definition bench_odometer : Odometer :=
  {| encoder := bench_slots;
     wheelDiameter := bench_diameters;
     countsPerRevolution := fun _ => 360%Z;
     distancePerCount := fun _ => ((PI * 6.5) / 360)%R;
     encodeFactor := fun _ => 1%Z;
     trackWidth := 15%R;
     X := 0%R; Y := 0%R; heading := 0%R;
     goalX := 0%R; goalY := 0%R;
     vLeft := 0%R; vRight := 0%R; omega := 0%R;
     previousLeftEncoderCounts := 0%Z;
     previousRightEncoderCounts := 0%Z;
     previousUpdateTime := 1000%Z |}.

(** The same odometer while the robot turns at 1 rad/s. *)
Definition turning_odometer : Odometer := Set_.omega 1%R bench_odometer.

(** The bench robot with its goal 10 ahead on the x axis. *)
Definition goal_ahead_odometer : Odometer := Set_.goalX 10%R bench_odometer.

(** The bench robot last updated 6 ms before the clock rolls over. *)
Definition late_odometer : Odometer :=
  Set_.previousUpdateTime 4294967290%Z bench_odometer.


(** A configuration whose left wheel has a negative diameter. *)
Definition negative_diameters : array R :=
  fun i => match i with I0 => (-6.5)%R | I1 => 6.5%R end.

(** What [setup] prints. *)
Definition setup_diagnostics (dpc0 tw : R) (cpr0 : Z) : list serial_op :=
  [ Print (PStr "DistancePerCount[0]:  "); Println (PDouble dpc0);
    Print (PStr "trackWidth:  "); Println (PDouble tw);
    Print (PStr "countsPerRevolution[0]:  "); Println (PLong cpr0) ].

(** * Properties *)

(** ** Machine integers *)

Lemma to_long_range (z : Z) : (- 2 ^ 31 <= to_long z < 2 ^ 31)%Z.
Proof.
  unfold to_long, half_modulus, modulus.
  pose proof (Z.mod_pos_bound (z + 2 ^ 31) (2 ^ 32)). lia.
Qed.

Lemma to_long_small (z : Z) : (- 2 ^ 31 <= z < 2 ^ 31)%Z -> to_long z = z.
Proof.
  intros Hz. unfold to_long, half_modulus, modulus.
  rewrite Z.mod_small; lia.
Qed.

Lemma overflow_guard_fires (l r : Z) :
  (32000 < l \/ 32000 < r)%Z -> ((l >? 32000)%Z || (r >? 32000)%Z)%bool = true.
Proof.
  intros [H | H]; apply Bool.orb_true_iff; [left | right]; lia.
Qed.

Lemma overflow_guard_idle (l r : Z) :
  (l <= 32000)%Z -> (r <= 32000)%Z ->
  ((l >? 32000)%Z || (r >? 32000)%Z)%bool = false.
Proof.
  intros Hl Hr. apply Bool.orb_false_iff; split; lia.
Qed.

(** ** The arctangent and the clamp *)

Lemma atan_nonpos (t : R) : (t <= 0 -> atan t <= 0)%R.
Proof.
  intros [Hlt | Heq].
  - left. rewrite <- atan_0. now apply atan_increasing.
  - subst t. rewrite atan_0. apply Rle_refl.
Qed.

Lemma atan_pos (t : R) : (0 < t -> 0 < atan t)%R.
Proof.
  intros Ht. rewrite <- atan_0. now apply atan_increasing.
Qed.

(** [atan2] returns an angle in (-PI, PI], whatever its arguments. *)
Lemma atan2_range (y x : R) : (- PI < atan2 y x <= PI)%R.
Proof.
  pose proof PI_RGT_0 as Hpi.
  pose proof (atan_bound (y / x)) as [Hlo Hhi].
  unfold atan2.
  destruct (Rlt_dec 0 x) as [Hx | Hx]; [lra |].
  destruct (Rlt_dec x 0) as [Hx' | Hx'].
  - destruct (Rle_dec 0 y) as [Hy | Hy].
    + assert (atan (y / x) <= 0)%R.
      { apply atan_nonpos. unfold Rdiv.
        pose proof (Rinv_lt_0_compat x Hx'). nra. }
      lra.
    + assert (0 < atan (y / x))%R.
      { apply atan_pos. unfold Rdiv.
        pose proof (Rinv_lt_0_compat x Hx'). nra. }
      lra.
  - destruct (Rlt_dec 0 y); [lra |].
    destruct (Rlt_dec y 0); lra.
Qed.

Lemma atan2_0_1 : atan2 0 1 = 0%R.
Proof.
  unfold atan2. destruct (Rlt_dec 0 1) as [_ | H]; [| lra].
  replace (0 / 1)%R with 0%R by lra. apply atan_0.
Qed.

Lemma constrain_clamped (x : R) : constrain x (-1) 1 = clamped (-1) 1 x.
Proof.
  unfold constrain, clamped.
  destruct (Rlt_dec x (-1)) as [Hlo | Hlo].
  - rewrite (Rmin_right 1 x) by lra. rewrite Rmax_left; lra.
  - destruct (Rgt_dec x 1) as [Hhi | Hhi].
    + rewrite (Rmin_left 1 x) by lra. rewrite Rmax_right; lra.
    + rewrite (Rmin_right 1 x) by lra. rewrite Rmax_right; lra.
Qed.

Lemma constrain_bounds (x : R) : (-1 <= constrain x (-1) 1 <= 1)%R.
Proof.
  unfold constrain.
  destruct (Rlt_dec x (-1)); [lra |].
  destruct (Rgt_dec x 1); lra.
Qed.

(** ** Running member functions *)

Ltac run :=
  unfold self_after, world_after, result, update, update_with, setup, reset,
    setCurrentPosition, setGoalPosition, calculateDeltasCrude,
    translateToLeftRightVelocities, getNormalizedHeadingError,
    for_each_wheel, assign_at, encoder_read, encoder_write,
    encoder_getCountsPerRevolution, millis, Serial_print, Serial_println,
    now, bind, ret, member, assign;
  cbn.

(** Case analysis on the tests of [update], the overflow guard apart. *)
Ltac split_whens :=
  repeat match goal with
         | |- context [when ?b _] =>
             lazymatch b with
             | orb _ _ => fail
             | _ => destruct b; cbn
             end
         end.

Ltac split_guard :=
  match goal with
  | |- context [when (orb ?a ?b) _] => destruct (orb a b); cbn
  end.

Create HintDb locals.
#[local] Hint Unfold leftEncoderCounts rightEncoderCounts deltaLeftTicks
  deltaRightTicks deltaTime deltaDistanceLeft deltaDistanceRight
  deltaHeading now : locals.

(** What [reset] does, in one equation. *)
Lemma reset_run (o : Odometer) (w : World) :
  reset o w =
    (tt,
     Set_.previousUpdateTime (now w)
       (Set_.previousRightEncoderCounts 0%Z
          (Set_.previousLeftEncoderCounts 0%Z o)),
     advance_clock
       (write_encoder (encoder o I1) 0 (write_encoder (encoder o I0) 0 w))).
Proof. reflexivity. Qed.

(** Writing zero to the encoders of both slots leaves every slot's encoder
    at zero, also when the two slots point to the same encoder. *)
Lemma both_encoders_zeroed (a : array nat) (w : World) (i : index) :
  count (encoders (write_encoder (a I1) 0 (write_encoder (a I0) 0 w)) (a i))
  = 0%Z.
Proof.
  destruct i; cbn.
  - destruct (Nat.eqb (a I1) (a I0)); [reflexivity |].
    now rewrite Nat.eqb_refl.
  - now rewrite Nat.eqb_refl.
Qed.

(** The pose [update] leaves: the midpoint step from the pose it found,
    then the wrap of the heading. *)
Lemma update_pose (o : Odometer) (w : World) :
  let d := (0.5 * (deltaDistanceLeft o w + deltaDistanceRight o w))%R in
  X (self_after update o w) = (X o + d * cos (heading o))%R /\
  Y (self_after update o w) = (Y o + d * sin (heading o))%R /\
  heading (self_after update o w) =
    atan2 (sin (heading o + deltaHeading o w))
          (cos (heading o + deltaHeading o w)).
Proof.
  destruct o, w. autounfold with locals. run. split_whens.
  all: split_guard; repeat split; reflexivity.
Qed.

(** C1.  Every call of [update] advances the pose by the midpoint (Euler)
    model.  With [dL] and [dR] the tick deltas of the two wheels (the
    signed encoder counts minus the stored previous counts), the heading
    change is [(dR * distancePerCount[right] - dL * distancePerCount[left])
    / trackWidth], the forward displacement is the average of the two
    wheel distances, it is projected on the heading held before the call
    with cosine and sine, and [X], [Y] and [heading] are incremented by
    the results, the heading being wrapped afterwards. *)
Theorem update_midpoint_model (o : Odometer) (w : World) :
  let dL := IZR (deltaLeftTicks o w) in
  let dR := IZR (deltaRightTicks o w) in
  let dHeading :=
    ((dR * distancePerCount o MOTOR_RIGHT - dL * distancePerCount o MOTOR_LEFT)
     / trackWidth o)%R in
  let forward :=
    ((dL * distancePerCount o MOTOR_LEFT + dR * distancePerCount o MOTOR_RIGHT)
     / 2)%R in
  let o' := self_after update o w in
  X o' = (X o + forward * cos (heading o))%R /\
  Y o' = (Y o + forward * sin (heading o))%R /\
  heading o' = atan2 (sin (heading o + dHeading)) (cos (heading o + dHeading)).
Proof.
  intros dL dR dHeading forward o'.
  destruct (update_pose o w) as (HX & HY & Hh).
  assert (Hf : (0.5 * (deltaDistanceLeft o w + deltaDistanceRight o w))%R
               = forward).
  { unfold forward, deltaDistanceLeft, deltaDistanceRight, dL, dR. lra. }
  rewrite Hf in HX, HY.
  repeat split; assumption.
Qed.




(** The wrap of the heading is the identity on an angle already in
    (-PI, PI], and in general moves the angle by a whole number of turns. *)
Lemma tan_shift (x : R) : (sin (x + PI) / cos (x + PI) = sin x / cos x)%R.
Proof.
  rewrite neg_sin, neg_cos.
  destruct (Req_dec (cos x) 0) as [H0 | Hn].
  - rewrite H0. unfold Rdiv. rewrite Ropp_0, Rinv_0. ring.
  - field. exact Hn.
Qed.

Ltac case_signs :=
  repeat match goal with
         | |- context [Rlt_dec ?a ?b] => destruct (Rlt_dec a b)
         | |- context [Rle_dec ?a ?b] => destruct (Rle_dec a b)
         end;
  try lra.

Lemma atan2_sin_cos (h : R) :
  (- PI < h <= PI)%R -> atan2 (sin h) (cos h) = h.
Proof.
  intros [Hlo Hhi]. pose proof PI_RGT_0 as Hpi.
  unfold atan2.
  destruct (Rlt_dec h (- (PI / 2))) as [H1 | H1].
  { assert (Hc : (cos h < 0)%R).
    { rewrite <- cos_neg. apply cos_lt_0; lra. }
    assert (Hs : (sin h < 0)%R) by (apply sin_lt_0_var; lra).
    case_signs.
    rewrite <- tan_shift. fold (tan (h + PI)).
    rewrite atan_tan; lra. }
  destruct (Req_dec h (- (PI / 2))) as [H2 | H2].
  { subst h. rewrite cos_neg, sin_neg, cos_PI2, sin_PI2. case_signs. }
  destruct (Rlt_dec h (PI / 2)) as [H3 | H3].
  { assert (Hc : (0 < cos h)%R) by (apply cos_gt_0; lra).
    case_signs.
    fold (tan h). apply atan_tan. lra. }
  destruct (Req_dec h (PI / 2)) as [H4 | H4].
  { subst h. rewrite cos_PI2, sin_PI2. case_signs. }
  assert (Hc : (cos h < 0)%R) by (apply cos_lt_0; lra).
  assert (Hs : (0 <= sin h)%R) by (apply sin_ge_0; lra).
  case_signs.
  replace h with ((h - PI) + PI)%R at 1 2 by ring.
  rewrite tan_shift. fold (tan (h - PI)).
  rewrite atan_tan; lra.
Qed.

Lemma sin_cos_period_Z (x : R) (k : Z) :
  sin (x + 2 * IZR k * PI) = sin x /\ cos (x + 2 * IZR k * PI) = cos x.
Proof.
  destruct (Z_le_gt_dec 0 k) as [Hk | Hk].
  - rewrite <- (Z2Nat.id k Hk), <- INR_IZR_INZ.
    split; [apply sin_period | apply cos_period].
  - assert (Hn : (0 <= - k)%Z) by lia.
    rewrite <- (sin_period (x + 2 * IZR k * PI) (Z.to_nat (- k))).
    rewrite <- (cos_period (x + 2 * IZR k * PI) (Z.to_nat (- k))).
    rewrite INR_IZR_INZ, (Z2Nat.id _ Hn), opp_IZR.
    split; f_equal; ring.
Qed.

Lemma turns_into_range (h : R) :
  exists k : Z, (- PI < h + 2 * IZR k * PI <= PI)%R.
Proof.
  pose proof PI_RGT_0 as Hpi.
  set (t := ((PI - h) / (2 * PI))%R).
  destruct (archimed t) as [Hup Hdown].
  exists (up t - 1)%Z. rewrite minus_IZR.
  assert (Ht : (t * (2 * PI) = PI - h)%R) by (unfold t; field; lra).
  split; nra.
Qed.

Lemma atan2_wraps (h : R) :
  exists k : Z, atan2 (sin h) (cos h) = (h + 2 * IZR k * PI)%R.
Proof.
  destruct (turns_into_range h) as [k Hk]. exists k.
  destruct (sin_cos_period_Z h k) as [Hs Hc].
  rewrite <- Hs, <- Hc. now apply atan2_sin_cos.
Qed.

(** The heading [update] leaves is the heading it found plus the heading
    change of the interval, up to whole turns. *)
Lemma update_heading_congruent (o : Odometer) (w : World) :
  exists k : Z,
    heading (self_after update o w) =
      (heading o + deltaHeading o w + 2 * IZR k * PI)%R.
Proof.
  destruct (update_pose o w) as (_ & _ & Hh).
  rewrite Hh. apply atan2_wraps.
Qed.

(** C3.  When no time has elapsed since the previous update, [update]
    leaves [vLeft], [vRight] and [omega] as it found them (nothing is
    divided by the zero interval), and still integrates the tick deltas of
    the interval into [X], [Y] and [heading]. *)
Theorem update_zero_elapsed_time (o : Odometer) (w : World) :
  deltaTime o w = 0%Z ->
  let d := (0.5 * (deltaDistanceLeft o w + deltaDistanceRight o w))%R in
  let o' := self_after update o w in
  vLeft o' = vLeft o /\ vRight o' = vRight o /\ omega o' = omega o /\
  X o' = (X o + d * cos (heading o))%R /\
  Y o' = (Y o + d * sin (heading o))%R /\
  heading o' =
    atan2 (sin (heading o + deltaHeading o w))
          (cos (heading o + deltaHeading o w)).
Proof.
  intros Hdt d o'.
  assert (Hv : vLeft o' = vLeft o /\ vRight o' = vRight o /\ omega o' = omega o).
  { subst o'. clear d. destruct o, w.
    autounfold with locals in Hdt. cbn in Hdt.
    run. rewrite Hdt. cbn. split_whens.
    all: split_guard; repeat split; reflexivity. }
  destruct Hv as (Hl & Hr & Ho).
  destruct (update_pose o w) as (HX & HY & Hh).
  repeat split; assumption.
Qed.

(** C5.  When, after the integration step of [update], a stored previous
    tick count exceeds 32000, the counters are reset: the encoders of both
    slots read zero, both previous counts are zero and the timestamp is
    the clock reading taken by the reset; [X], [Y] and [heading] keep the
    values the integration step gave them. *)
Theorem update_overflow_reset (o : Odometer) (w : World) :
  (32000 < leftEncoderCounts o w \/ 32000 < rightEncoderCounts o w)%Z ->
  let d := (0.5 * (deltaDistanceLeft o w + deltaDistanceRight o w))%R in
  let o' := self_after update o w in
  let w' := world_after update o w in
  (forall i, count (encoders w' (encoder o' i)) = 0%Z) /\
  previousLeftEncoderCounts o' = 0%Z /\
  previousRightEncoderCounts o' = 0%Z /\
  previousUpdateTime o' = now (advance_clock w) /\
  clock_reads w' = S (S (clock_reads w)) /\
  X o' = (X o + d * cos (heading o))%R /\
  Y o' = (Y o + d * sin (heading o))%R /\
  heading o' =
    atan2 (sin (heading o + deltaHeading o w))
          (cos (heading o + deltaHeading o w)).
Proof.
  intros Hguard d o' w'.
  apply overflow_guard_fires in Hguard.
  assert (Hreset :
    (forall i, count (encoders w' (encoder o' i)) = 0%Z) /\
    previousLeftEncoderCounts o' = 0%Z /\
    previousRightEncoderCounts o' = 0%Z /\
    previousUpdateTime o' = now (advance_clock w) /\
    clock_reads w' = S (S (clock_reads w))).
  { subst o' w'. clear d.
    destruct o as [enc ? ? ? ? ? ? ? ? ? ? ? ? ? ? ? ?], w as [encs clk n out].
    autounfold with locals in Hguard. cbn in Hguard.
    run. split_whens.
    all: rewrite Hguard; cbn.
    all: split;
      [intros i; exact (both_encoders_zeroed enc (Build_World encs clk n out) i)
      | repeat split; reflexivity]. }
  destruct Hreset as (Henc & Hl & Hr & Ht & Hc).
  destruct (update_pose o w) as (HX & HY & Hh).
  repeat split; assumption.
Qed.

(** C10.  The overflow guard of [update] fires on positive exceedance
    only: whenever both stored previous tick counts are at most 32000,
    however negative, no reset takes place.  No encoder is written, the
    previous counts keep the counts just read, the clock is read once, and
    the reset notice is not printed. *)
Theorem update_no_reset_below_threshold (o : Odometer) (w : World) :
  (leftEncoderCounts o w <= 32000)%Z ->
  (rightEncoderCounts o w <= 32000)%Z ->
  let o' := self_after update o w in
  let w' := world_after update o w in
  encoders w' = encoders w /\
  previousLeftEncoderCounts o' = leftEncoderCounts o w /\
  previousRightEncoderCounts o' = rightEncoderCounts o w /\
  previousUpdateTime o' = now w /\
  clock_reads w' = S (clock_reads w) /\
  exists printed,
    serial w' = serial w ++ printed /\
    ~ In (Println (PStr "Resetting odometers.")) printed.
Proof.
  intros Hl Hr o' w'. subst o' w'.
  pose proof (overflow_guard_idle Hl Hr) as Hguard.
  destruct o, w as [encs clk n out].
  autounfold with locals in Hguard |- *. cbn in Hguard |- *.
  run. split_whens.
  all: rewrite Hguard; cbn.
  all: repeat (split; [reflexivity |]).
  all: eexists; split;
    [rewrite <- ?app_assoc; try reflexivity; symmetry; apply app_nil_r |].
  all: cbn; intros Hin;
    repeat destruct Hin as [Hin | Hin]; try discriminate; exact Hin.
Qed.

(** C7.  [reset] zeroes the count of the encoders of both slots, sets both
    previous tick counts to zero, stamps the timestamp with the current
    clock reading, and leaves [X], [Y] and [heading] as they were. *)
Theorem reset_counters_keeps_pose (o : Odometer) (w : World) :
  let o' := self_after reset o w in
  let w' := world_after reset o w in
  (forall i, count (encoders w' (encoder o' i)) = 0%Z) /\
  previousLeftEncoderCounts o' = 0%Z /\
  previousRightEncoderCounts o' = 0%Z /\
  previousUpdateTime o' = now w /\
  X o' = X o /\ Y o' = Y o /\ heading o' = heading o.
Proof.
  intros o' w'. subst o' w'.
  unfold self_after, world_after. rewrite reset_run.
  destruct o as [enc ? ? ? ? ? ? ? ? ? ? ? ? ? ? ? ?]. cbn.
  split; [intros i; exact (both_encoders_zeroed enc w i) |].
  repeat split; reflexivity.
Qed.

(** C6.  [translateToLeftRightVelocities] is a pure function: it returns
    the left value [linear - angular] and the right value
    [linear + angular], each clamped to [[-1, 1]], and leaves the odometer
    and its collaborators untouched; the commands [(1, 0)] and [(0, 1)]
    give [(1, 1)] and [(-1, 1)]. *)
Theorem translate_is_pure_mixer (normLinear normAngular : R)
    (o : Odometer) (w : World) :
  translateToLeftRightVelocities normLinear normAngular o w =
    ((clamped (-1) 1 (normLinear - normAngular),
      clamped (-1) 1 (normLinear + normAngular)), o, w) /\
  (-1 <= clamped (-1) 1 (normLinear - normAngular) <= 1)%R /\
  (-1 <= clamped (-1) 1 (normLinear + normAngular) <= 1)%R /\
  translateToLeftRightVelocities 1 0 o w = ((1%R, 1%R), o, w) /\
  translateToLeftRightVelocities 0 1 o w = (((-1)%R, 1%R), o, w).
Proof.
  repeat split.
  - unfold translateToLeftRightVelocities, ret.
    now rewrite !constrain_clamped.
  - rewrite <- constrain_clamped. apply constrain_bounds.
  - rewrite <- constrain_clamped. apply constrain_bounds.
  - rewrite <- constrain_clamped. apply constrain_bounds.
  - rewrite <- constrain_clamped. apply constrain_bounds.
  - unfold translateToLeftRightVelocities, ret, constrain.
    repeat f_equal.
    + destruct (Rlt_dec (1 - 0) (-1)); [lra |].
      destruct (Rgt_dec (1 - 0) 1); lra.
    + destruct (Rlt_dec (1 + 0) (-1)); [lra |].
      destruct (Rgt_dec (1 + 0) 1); lra.
  - unfold translateToLeftRightVelocities, ret, constrain.
    repeat f_equal.
    + destruct (Rlt_dec (0 - 1) (-1)); [lra |].
      destruct (Rgt_dec (0 - 1) 1); lra.
    + destruct (Rlt_dec (0 + 1) (-1)); [lra |].
      destruct (Rgt_dec (0 + 1) 1); lra.
Qed.

(** C9.  [getNormalizedHeadingError] returns
    [atan2 (sin (heading - requiredHeading)) (cos (heading - requiredHeading)) / PI],
    a value in [[-1, 1]], and changes nothing; asked for the error to the
    current heading itself it returns exactly 0. *)
Theorem heading_error_normalised (o : Odometer) (w : World)
    (requiredHeading : R) :
  getNormalizedHeadingError requiredHeading o w =
    ((atan2 (sin (heading o - requiredHeading))
            (cos (heading o - requiredHeading)) / PI)%R, o, w) /\
  (-1 <= result (getNormalizedHeadingError requiredHeading) o w <= 1)%R /\
  result (getNormalizedHeadingError (heading o)) o w = 0%R.
Proof.
  pose proof PI_RGT_0 as Hpi.
  split; [reflexivity |]. split.
  - unfold result, getNormalizedHeadingError, bind, member, ret. cbn.
    destruct (atan2_range (sin (heading o - requiredHeading))
                          (cos (heading o - requiredHeading))) as [Hlo Hhi].
    split.
    + apply Rmult_le_reg_r with PI; [exact Hpi |].
      unfold Rdiv. rewrite Rmult_assoc, Rinv_l by lra. lra.
    + apply Rmult_le_reg_r with PI; [exact Hpi |].
      unfold Rdiv. rewrite Rmult_assoc, Rinv_l by lra. lra.
  - unfold result, getNormalizedHeadingError, bind, member, ret. cbn.
    replace (heading o - heading o)%R with 0%R by lra.
    rewrite sin_0, cos_0, atan2_0_1. lra.
Qed.

(** ** Initialisation *)

(** The members [setup] leaves.  Every member is assigned, except
    [omega], which keeps the value it had. *)
Lemma setup_members (inEncoder : array nat) (isEncoderForward : array bool)
    (inWheelDiameter : array R) (inTrackWidth : R) (o : Odometer) (w : World) :
  let o' :=
    self_after (setup inEncoder isEncoderForward inWheelDiameter inTrackWidth)
      o w in
  (forall i,
     encoder o' i = inEncoder i /\
     wheelDiameter o' i = inWheelDiameter i /\
     countsPerRevolution o' i = countsPerRev (encoders w (inEncoder i)) /\
     distancePerCount o' i =
       ((PI * inWheelDiameter i)
        / IZR (countsPerRev (encoders w (inEncoder i))))%R /\
     encodeFactor o' i = if isEncoderForward i then 1%Z else (-1)%Z) /\
  trackWidth o' = inTrackWidth /\
  X o' = 0%R /\ Y o' = 0%R /\ heading o' = 0%R /\
  goalX o' = 0%R /\ goalY o' = 0%R /\
  vLeft o' = 0%R /\ vRight o' = 0%R /\
  omega o' = omega o /\
  previousLeftEncoderCounts o' = 0%Z /\
  previousRightEncoderCounts o' = 0%Z /\
  previousUpdateTime o' = now w.
Proof.
  destruct o, w. run.
  destruct (isEncoderForward I0) eqn:F0, (isEncoderForward I1) eqn:F1; cbn.
  all: split; [| repeat split; reflexivity].
  all: intros [|]; rewrite ?F0, ?F1; repeat split; reflexivity.
Qed.

(** The collaborators [setup] leaves: the three diagnostic values are
    printed, both encoders are zeroed and the clock is read once. *)
Lemma setup_world (inEncoder : array nat) (isEncoderForward : array bool)
    (inWheelDiameter : array R) (inTrackWidth : R) (o : Odometer) (w : World) :
  let w' :=
    world_after (setup inEncoder isEncoderForward inWheelDiameter inTrackWidth)
      o w in
  serial w' =
    serial w ++
    setup_diagnostics
      ((PI * inWheelDiameter I0) / IZR (countsPerRev (encoders w (inEncoder I0))))
      inTrackWidth
      (countsPerRev (encoders w (inEncoder I0))) /\
  (forall i, count (encoders w' (inEncoder i)) = 0%Z) /\
  clock_reads w' = S (clock_reads w).
Proof.
  destruct o, w as [encs clk n out]. run.
  destruct (isEncoderForward I0), (isEncoderForward I1); cbn.
  all: split; [rewrite <- !app_assoc; reflexivity |].
  all: split; [| reflexivity].
  all: intros i;
    exact (both_encoders_zeroed inEncoder (Build_World encs clk n out) i).
Qed.

(** C4, as the code has it.  [setup] validates nothing: whatever the
    signs of the wheel diameters and of the counts per revolution, it
    stores them, stores [distancePerCount[i] = PI * diameter[i] /
    countsPerRevolution[i]] for both wheels, and prints its three
    diagnostic values and nothing else; no error is signalled. *)
Theorem setup_accepts_every_configuration (inEncoder : array nat)
    (isEncoderForward : array bool) (inWheelDiameter : array R)
    (inTrackWidth : R) (o : Odometer) (w : World) :
  let m := setup inEncoder isEncoderForward inWheelDiameter inTrackWidth in
  let o' := self_after m o w in
  let w' := world_after m o w in
  (forall i,
     wheelDiameter o' i = inWheelDiameter i /\
     countsPerRevolution o' i = countsPerRev (encoders w (inEncoder i)) /\
     distancePerCount o' i =
       ((PI * inWheelDiameter i)
        / IZR (countsPerRev (encoders w (inEncoder i))))%R) /\
  serial w' =
    serial w ++
    setup_diagnostics (distancePerCount o' I0) inTrackWidth
      (countsPerRevolution o' I0).
Proof.
  intros m o' w'.
  destruct (setup_members inEncoder isEncoderForward inWheelDiameter
              inTrackWidth o w) as (Hslots & _).
  destruct (setup_world inEncoder isEncoderForward inWheelDiameter
              inTrackWidth o w) as (Hout & _).
  fold m in Hslots, Hout. fold o' in Hslots. fold w' in Hout.
  split.
  - intros i. destruct (Hslots i) as (_ & Hd & Hc & Hdpc & _).
    repeat split; assumption.
  - destruct (Hslots I0) as (_ & _ & Hc & Hdpc & _).
    rewrite Hdpc, Hc. exact Hout.
Qed.

(** * Further properties of Odometer.cpp *)

(** ** Machine integers, continued *)

Lemma to_long_idempotent (z : Z) : to_long (to_long z) = to_long z.
Proof. apply to_long_small, to_long_range. Qed.

Lemma to_long_minus_0 (z : Z) : to_long (to_long z - 0) = to_long z.
Proof. rewrite Z.sub_0_r. apply to_long_idempotent. Qed.

Lemma to_long_diag (z : Z) : to_long (z - z) = 0%Z.
Proof. now rewrite Z.sub_diag. Qed.

(** ** [update]: velocities, frame and bookkeeping *)

(** The velocity estimates [update] stores when time has elapsed. *)
Lemma update_velocities (o : Odometer) (w : World) :
  deltaTime o w <> 0%Z ->
  let o' := self_after update o w in
  vLeft o' = (deltaDistanceLeft o w * 1000 / IZR (deltaTime o w))%R /\
  vRight o' = (deltaDistanceRight o w * 1000 / IZR (deltaTime o w))%R /\
  omega o' = (deltaHeading o w * 1000 / IZR (deltaTime o w))%R.
Proof.
  intros Hdt o'.
  apply Z.eqb_neq in Hdt. subst o'. destruct o, w.
  autounfold with locals in Hdt |- *. cbn in Hdt |- *.
  run. rewrite Hdt. cbn. split_whens.
  all: split_guard; repeat split; f_equal; lra.
Qed.

(** The goal [update] leaves is the goal it found. *)
Lemma update_goal (o : Odometer) (w : World) :
  goalX (self_after update o w) = goalX o /\
  goalY (self_after update o w) = goalY o.
Proof.
  destruct o, w. run. split_whens.
  all: split_guard; split; reflexivity.
Qed.

(** X1.  When time has elapsed, [update] stores the wheel distances and
    the heading change of the interval per second (the interval is in
    milliseconds), and the three estimates agree with the kinematics of the
    drive: [omega = (vRight - vLeft) / trackWidth]. *)
Theorem update_velocity_estimate (o : Odometer) (w : World) :
  deltaTime o w <> 0%Z ->
  let o' := self_after update o w in
  vLeft o' = (deltaDistanceLeft o w * 1000 / IZR (deltaTime o w))%R /\
  vRight o' = (deltaDistanceRight o w * 1000 / IZR (deltaTime o w))%R /\
  omega o' = (deltaHeading o w * 1000 / IZR (deltaTime o w))%R /\
  omega o' = ((vRight o' - vLeft o') / trackWidth o)%R.
Proof.
  intros Hdt o'.
  destruct (update_velocities o w Hdt) as (Hl & Hr & Ho).
  fold o' in Hl, Hr, Ho.
  repeat split; try assumption.
  rewrite Ho, Hl, Hr. unfold deltaHeading, Rdiv. ring.
Qed.

(** X2.  [update] never touches the calibration or the goal: the encoder
    pointers, wheel diameters, counts per revolution, distances per count,
    direction factors, track width and goal position are as before, and so
    is the counts-per-revolution constant of every encoder. *)
Theorem update_keeps_calibration_and_goal (o : Odometer) (w : World) :
  let o' := self_after update o w in
  let w' := world_after update o w in
  encoder o' = encoder o /\
  wheelDiameter o' = wheelDiameter o /\
  countsPerRevolution o' = countsPerRevolution o /\
  distancePerCount o' = distancePerCount o /\
  encodeFactor o' = encodeFactor o /\
  trackWidth o' = trackWidth o /\
  goalX o' = goalX o /\ goalY o' = goalY o /\
  forall p, countsPerRev (encoders w' p) = countsPerRev (encoders w p).
Proof.
  intros o' w'. subst o' w'. destruct o as [enc ? ? ? ? ? ? ? ? ? ? ? ? ? ? ? ?], w.
  run. split_whens.
  all: split_guard; repeat (split; [reflexivity |]); intros p; cbn;
    try reflexivity.
  all: destruct (Nat.eqb (enc I1) p), (Nat.eqb (enc I0) p); reflexivity.
Qed.

(** The stored previous counts and the encoders are in step after every
    [update], whether it reset the counters or not. *)
Lemma update_bookkeeping_in_step (o : Odometer) (w : World) :
  let o' := self_after update o w in
  let w' := world_after update o w in
  leftEncoderCounts o' w' = previousLeftEncoderCounts o' /\
  rightEncoderCounts o' w' = previousRightEncoderCounts o'.
Proof.
  intros o' w'. subst o' w'.
  destruct o as [enc ? ? ? fac ? ? ? ? ? ? ? ? ? ? ? ?], w as [encs clk n out].
  autounfold with locals. run. split_whens.
  all: split_guard.
  all: try (split; reflexivity).
  all: split.
  all: match goal with
       | |- to_long (count ?e * _) = _ =>
           let H := fresh in
           assert (H : count e = 0%Z);
           [| rewrite H; reflexivity]
       end.
  all: try exact (both_encoders_zeroed enc (Build_World encs clk n out) MOTOR_LEFT).
  all: exact (both_encoders_zeroed enc (Build_World encs clk n out) MOTOR_RIGHT).
Qed.

(** X3.  A second [update] made before any encoder has moved sees zero
    tick deltas on both wheels, whether the first [update] reset the
    counters or not. *)
Theorem update_twice_no_motion (o : Odometer) (w w2 : World) :
  encoders w2 = encoders (world_after update o w) ->
  deltaLeftTicks (self_after update o w) w2 = 0%Z /\
  deltaRightTicks (self_after update o w) w2 = 0%Z.
Proof.
  intros Henc.
  destruct (update_bookkeeping_in_step o w) as [Hl Hr].
  unfold deltaLeftTicks, deltaRightTicks.
  unfold leftEncoderCounts, rightEncoderCounts in *.
  rewrite Henc, Hl, Hr. split; apply to_long_diag.
Qed.

(** ** [reset], [setCurrentPosition] and [setGoalPosition] *)

(** X4.  After [reset], the tick deltas the next [update] computes are the
    signed encoder counts themselves: counting starts again from zero. *)
Theorem reset_then_deltas_from_zero (o : Odometer) (w w2 : World) :
  deltaLeftTicks (self_after reset o w) w2
    = leftEncoderCounts (self_after reset o w) w2 /\
  deltaRightTicks (self_after reset o w) w2
    = rightEncoderCounts (self_after reset o w) w2.
Proof.
  unfold self_after. rewrite reset_run.
  unfold deltaLeftTicks, deltaRightTicks, leftEncoderCounts, rightEncoderCounts.
  destruct o. cbn. split; apply to_long_minus_0.
Qed.

(** X5.  [reset] touches nothing but the tick bookkeeping: calibration,
    goal and velocity estimates are as before, nothing is printed, the
    counts-per-revolution constant of every encoder is kept, and an encoder
    that neither slot points to keeps its count. *)
Theorem reset_frame (o : Odometer) (w : World) :
  let o' := self_after reset o w in
  let w' := world_after reset o w in
  (encoder o' = encoder o /\
   wheelDiameter o' = wheelDiameter o /\
   countsPerRevolution o' = countsPerRevolution o /\
   distancePerCount o' = distancePerCount o /\
   encodeFactor o' = encodeFactor o /\
   trackWidth o' = trackWidth o) /\
  (goalX o' = goalX o /\ goalY o' = goalY o) /\
  (vLeft o' = vLeft o /\ vRight o' = vRight o /\ omega o' = omega o) /\
  serial w' = serial w /\
  (forall p, countsPerRev (encoders w' p) = countsPerRev (encoders w p)) /\
  (forall p, p <> encoder o I0 -> p <> encoder o I1 ->
             encoders w' p = encoders w p).
Proof.
  intros o' w'. subst o' w'. unfold self_after, world_after.
  rewrite reset_run. destruct o as [enc ? ? ? ? ? ? ? ? ? ? ? ? ? ? ? ?]. cbn.
  repeat (split; [repeat split; reflexivity |]). split.
  - intros p. destruct (Nat.eqb (enc I1) p), (Nat.eqb (enc I0) p); reflexivity.
  - intros p H0 H1.
    destruct (Nat.eqb_spec (enc I1) p) as [E | _]; [congruence |].
    destruct (Nat.eqb_spec (enc I0) p) as [E | _]; [congruence |].
    reflexivity.
Qed.

(** X6.  [setCurrentPosition] resets the counters and then stores the
    pose exactly as given; the heading is not wrapped.  Goal and velocity
    estimates are kept. *)
Theorem setCurrentPosition_effect (x y inHeading : R) (o : Odometer) (w : World) :
  let o' := self_after (setCurrentPosition x y inHeading) o w in
  let w' := world_after (setCurrentPosition x y inHeading) o w in
  X o' = x /\ Y o' = y /\ heading o' = inHeading /\
  (forall i, count (encoders w' (encoder o' i)) = 0%Z) /\
  previousLeftEncoderCounts o' = 0%Z /\
  previousRightEncoderCounts o' = 0%Z /\
  previousUpdateTime o' = now w /\
  goalX o' = goalX o /\ goalY o' = goalY o /\
  vLeft o' = vLeft o /\ vRight o' = vRight o /\ omega o' = omega o.
Proof.
  intros o' w'. subst o' w'.
  destruct o as [enc ? ? ? ? ? ? ? ? ? ? ? ? ? ? ? ?], w as [encs clk n out].
  run. repeat (split; [reflexivity |]).
  split; [| repeat split; reflexivity].
  intros i. exact (both_encoders_zeroed enc (Build_World encs clk n out) i).
Qed.

(** ** Goal geometry *)

(** X7.  The distance to the goal is never negative, it is zero exactly
    when the goal is the current position, and asking for it changes
    nothing. *)
Theorem getDistanceToGoal_zero_iff (o : Odometer) (w : World) :
  (0 <= result getDistanceToGoal o w)%R /\
  (result getDistanceToGoal o w = 0%R <-> goalX o = X o /\ goalY o = Y o) /\
  self_after getDistanceToGoal o w = o /\
  world_after getDistanceToGoal o w = w.
Proof.
  unfold result, self_after, world_after, getDistanceToGoal, bind, member, ret.
  cbn [fst snd].
  assert (Hsq : (0 <= (goalX o - X o) ^ 2 + (goalY o - Y o) ^ 2)%R).
  { apply Rplus_le_le_0_compat; apply pow2_ge_0. }
  split; [apply sqrt_pos |]. split; [| split; reflexivity].
  split.
  - intros H0. apply sqrt_eq_0 in H0; [| exact Hsq].
    pose proof (pow2_ge_0 (goalX o - X o)) as Ha.
    pose proof (pow2_ge_0 (goalY o - Y o)) as Hb.
    assert (Ha0 : ((goalX o - X o) ^ 2 = 0)%R) by lra.
    assert (Hb0 : ((goalY o - Y o) ^ 2 = 0)%R) by lra.
    rewrite <- Rsqr_pow2 in Ha0, Hb0.
    apply Rsqr_eq_0 in Ha0, Hb0. split; lra.
  - intros [Hx Hy]. rewrite Hx, Hy.
    replace ((X o - X o) ^ 2 + (Y o - Y o) ^ 2)%R with 0%R by ring.
    apply sqrt_0.
Qed.

(** [atan2] does not depend on the distance of the point from the origin. *)
Lemma atan2_scale (d y x : R) :
  (0 < d)%R -> atan2 (d * y) (d * x) = atan2 y x.
Proof.
  intros Hd. unfold atan2.
  assert (Hq : x <> 0%R -> (d * y / (d * x) = y / x)%R)
    by (intros Hx; field; split; lra).
  destruct (Rlt_dec 0 x) as [Hx | Hx].
  { destruct (Rlt_dec 0 (d * x)); [| nra]. rewrite Hq by lra. reflexivity. }
  destruct (Rlt_dec 0 (d * x)); [nra |].
  destruct (Rlt_dec x 0) as [Hx' | Hx'].
  { destruct (Rlt_dec (d * x) 0); [| nra]. rewrite Hq by lra.
    destruct (Rle_dec 0 y), (Rle_dec 0 (d * y)); try reflexivity; nra. }
  destruct (Rlt_dec (d * x) 0); [nra |].
  destruct (Rlt_dec 0 y), (Rlt_dec 0 (d * y)); try reflexivity; try nra.
  destruct (Rlt_dec y 0), (Rlt_dec (d * y) 0); try reflexivity; nra.
Qed.

(** X8.  When the goal lies at a distance [d > 0] from the current
    position in the direction [theta], an angle of (-PI, PI],
    [calculateGoalHeading] returns [theta]. *)
Theorem calculateGoalHeading_direction (o : Odometer) (w : World) (d theta : R) :
  (0 < d)%R -> (- PI < theta <= PI)%R ->
  goalX o = (X o + d * cos theta)%R ->
  goalY o = (Y o + d * sin theta)%R ->
  result calculateGoalHeading o w = theta.
Proof.
  intros Hd Htheta Hx Hy.
  unfold result, calculateGoalHeading, bind, member, ret. cbn.
  rewrite Hx, Hy.
  replace (Y o + d * sin theta - Y o)%R with (d * sin theta)%R by ring.
  replace (X o + d * cos theta - X o)%R with (d * cos theta)%R by ring.
  rewrite atan2_scale by exact Hd. now apply atan2_sin_cos.
Qed.

(** X9.  The goal heading lies in the closed interval from [-PI] to [PI]
    wherever the goal is, and once the goal is set to the current position
    it is 0. *)
Theorem calculateGoalHeading_range_and_degenerate (o : Odometer) (w : World) :
  (- PI <= result calculateGoalHeading o w <= PI)%R /\
  result calculateGoalHeading
    (self_after (setGoalPosition (X o) (Y o)) o w) w = 0%R.
Proof.
  split.
  - unfold result, calculateGoalHeading, bind, member, ret. cbn.
    pose proof (atan2_range (goalY o - Y o) (goalX o - X o)). lra.
  - destruct o. run.
    unfold result, calculateGoalHeading, bind, member, ret. cbn.
    rewrite !Rminus_diag. unfold atan2.
    destruct (Rlt_dec 0 0); [lra | reflexivity].
Qed.

(** ** Heading error *)

(** X10.  When the robot faces the goal, that is when the goal lies at a
    distance [d > 0] straight along the current heading, the heading error
    to the goal is 0, whatever turns the stored heading carries. *)
Theorem heading_error_zero_when_facing_goal (o : Odometer) (w : World) (d : R) :
  (0 < d)%R ->
  goalX o = (X o + d * cos (heading o))%R ->
  goalY o = (Y o + d * sin (heading o))%R ->
  result getNormalizedHeadingErrorToGoal o w = 0%R.
Proof.
  intros Hd Hx Hy.
  unfold result, getNormalizedHeadingErrorToGoal, getNormalizedHeadingError,
    calculateGoalHeading, bind, member, ret.
  cbn [fst snd]. rewrite Hx, Hy.
  replace (Y o + d * sin (heading o) - Y o)%R
    with (d * sin (heading o))%R by ring.
  replace (X o + d * cos (heading o) - X o)%R
    with (d * cos (heading o))%R by ring.
  rewrite atan2_scale by exact Hd.
  destruct (atan2_wraps (heading o)) as [k Hk]. rewrite Hk.
  replace (heading o - (heading o + 2 * IZR k * PI))%R
    with (0 + 2 * IZR (- k) * PI)%R by (rewrite opp_IZR; ring).
  destruct (sin_cos_period_Z 0 (- k)) as [Hs Hc].
  rewrite Hs, Hc, sin_0, cos_0, atan2_0_1. lra.
Qed.

(** X11.  The heading error is the difference between the heading and the
    required heading, brought into (-PI, PI] by whole turns and divided by
    PI. *)
Theorem heading_error_reduced_difference (o : Odometer) (w : World)
    (requiredHeading : R) (k : Z) :
  (- PI < heading o - requiredHeading + 2 * IZR k * PI <= PI)%R ->
  result (getNormalizedHeadingError requiredHeading) o w =
    ((heading o - requiredHeading + 2 * IZR k * PI) / PI)%R.
Proof.
  intros Hrange.
  unfold result, getNormalizedHeadingError, bind, member, ret. cbn [fst snd].
  destruct (sin_cos_period_Z (heading o - requiredHeading) k) as [Hs Hc].
  rewrite <- Hs, <- Hc. now rewrite atan2_sin_cos.
Qed.

(** ** [update]: driving straight and turning on the spot *)

(** X12.  Equal wheel distances move the robot along its heading and leave
    a heading of (-PI, PI] unchanged. *)
Theorem update_straight_line (o : Odometer) (w : World) :
  deltaDistanceLeft o w = deltaDistanceRight o w ->
  (- PI < heading o <= PI)%R ->
  let o' := self_after update o w in
  X o' = (X o + deltaDistanceLeft o w * cos (heading o))%R /\
  Y o' = (Y o + deltaDistanceLeft o w * sin (heading o))%R /\
  heading o' = heading o.
Proof.
  intros Heq Hrange o'.
  destruct (update_pose o w) as (HX & HY & Hh). fold o' in HX, HY, Hh.
  assert (H0 : deltaHeading o w = 0%R).
  { unfold deltaHeading. rewrite Heq. unfold Rdiv. ring. }
  rewrite H0, Rplus_0_r, atan2_sin_cos in Hh by exact Hrange.
  rewrite HX, HY, Hh, <- Heq. repeat split; f_equal; lra.
Qed.

(** X13.  Opposite wheel distances turn the robot on the spot: [X] and [Y]
    are unchanged and the heading moves by twice the right wheel distance
    over the track width, up to whole turns. *)
Theorem update_turn_in_place (o : Odometer) (w : World) :
  deltaDistanceLeft o w = (- deltaDistanceRight o w)%R ->
  let o' := self_after update o w in
  X o' = X o /\ Y o' = Y o /\
  exists k : Z,
    heading o' =
      (heading o + 2 * deltaDistanceRight o w / trackWidth o
       + 2 * IZR k * PI)%R.
Proof.
  intros Hopp o'.
  destruct (update_pose o w) as (HX & HY & _). fold o' in HX, HY.
  destruct (update_heading_congruent o w) as [k Hk]. fold o' in Hk.
  rewrite HX, HY, Hopp. repeat split; try lra.
  exists k. rewrite Hk. unfold deltaHeading. rewrite Hopp.
  unfold Rdiv. ring.
Qed.

(** X14.  After an [update] over a non-zero interval, [getLinearVelocity]
    is the midpoint displacement per second, and the change of [X] is that
    velocity times the interval, projected on the heading. *)
Theorem update_linear_velocity_consistent (o : Odometer) (w : World) :
  deltaTime o w <> 0%Z ->
  let o' := self_after update o w in
  let w' := world_after update o w in
  let v := result getLinearVelocity o' w' in
  v = (0.5 * (deltaDistanceLeft o w + deltaDistanceRight o w) * 1000
       / IZR (deltaTime o w))%R /\
  (X o' - X o = v * (IZR (deltaTime o w) / 1000) * cos (heading o))%R /\
  (Y o' - Y o = v * (IZR (deltaTime o w) / 1000) * sin (heading o))%R.
Proof.
  intros Hdt o' w' v.
  destruct (update_velocities o w Hdt) as (Hl & Hr & _). fold o' in Hl, Hr.
  destruct (update_pose o w) as (HX & HY & _). fold o' in HX, HY.
  assert (Hnz : IZR (deltaTime o w) <> 0%R) by now apply not_0_IZR.
  assert (Hhalf : 0.5%R = (/ 2)%R) by lra.
  assert (Htwo : 2.0%R = 2%R) by lra.
  assert (Hv : v = (0.5 * (deltaDistanceLeft o w + deltaDistanceRight o w)
                    * 1000 / IZR (deltaTime o w))%R).
  { unfold v, result, getLinearVelocity, bind, member, ret. cbn [fst snd].
    rewrite Hl, Hr, Hhalf, Htwo. field. exact Hnz. }
  split; [exact Hv |].
  rewrite Hv, HX, HY, Hhalf. split; field; exact Hnz.
Qed.

(** X15.  Driving straight at the goal shortens the distance to it by the
    distance driven: facing a goal [D] away, equal wheel distances [d] with
    [0 <= d <= D] leave the goal [D - d] away. *)
Theorem update_approaches_goal (o : Odometer) (w : World) (D : R) :
  deltaDistanceLeft o w = deltaDistanceRight o w ->
  (0 <= deltaDistanceLeft o w <= D)%R ->
  goalX o = (X o + D * cos (heading o))%R ->
  goalY o = (Y o + D * sin (heading o))%R ->
  result getDistanceToGoal (self_after update o w) (world_after update o w)
  = (D - deltaDistanceLeft o w)%R.
Proof.
  intros Heq Hd Hgx Hgy.
  destruct (update_pose o w) as (HX & HY & _).
  destruct (update_goal o w) as (HgX & HgY).
  unfold result, getDistanceToGoal, bind, member, ret. cbn [fst snd].
  rewrite HgX, HgY, HX, HY, Hgx, Hgy, <- Heq.
  set (d := deltaDistanceLeft o w) in *.
  replace ((X o + D * cos (heading o) - (X o + 0.5 * (d + d) * cos (heading o))) ^ 2
           + (Y o + D * sin (heading o)
              - (Y o + 0.5 * (d + d) * sin (heading o))) ^ 2)%R
    with ((D - d) ^ 2 * (Rsqr (sin (heading o)) + Rsqr (cos (heading o))))%R
    by (replace 0.5%R with (/ 2)%R by lra; unfold Rsqr; field).
  rewrite sin2_cos2, Rmult_1_r. apply sqrt_pow2. lra.
Qed.

(** ** The mixer *)

Lemma constrain_inside (x : R) :
  (-1 <= x <= 1)%R -> constrain x (-1) 1 = x.
Proof.
  intros [Hlo Hhi]. unfold constrain.
  destruct (Rlt_dec x (-1)); [lra |].
  destruct (Rgt_dec x 1); [lra | reflexivity].
Qed.

Lemma constrain_odd (x : R) :
  constrain (- x) (-1) 1 = (- constrain x (-1) 1)%R.
Proof.
  unfold constrain.
  destruct (Rlt_dec (- x) (-1)), (Rgt_dec (- x) 1),
    (Rlt_dec x (-1)), (Rgt_dec x 1); lra.
Qed.

(** X16.  While neither wheel command saturates, the mixer loses nothing:
    the mean of the two wheel commands is the linear command and half their
    difference is the angular command. *)
Theorem translate_round_trip (normLinear normAngular : R)
    (o : Odometer) (w : World) :
  (-1 <= normLinear - normAngular <= 1)%R ->
  (-1 <= normLinear + normAngular <= 1)%R ->
  let left :=
    fst (result (translateToLeftRightVelocities normLinear normAngular) o w) in
  let right :=
    snd (result (translateToLeftRightVelocities normLinear normAngular) o w) in
  ((left + right) / 2 = normLinear)%R /\
  ((right - left) / 2 = normAngular)%R.
Proof.
  intros Hl Hr left right. subst left right.
  unfold result, translateToLeftRightVelocities, ret. cbn [fst snd].
  rewrite !constrain_inside by assumption. split; lra.
Qed.

(** X17.  The mixer is symmetric: reversing the angular command swaps the
    two wheel commands, and reversing both commands reverses both wheel
    commands. *)
Theorem translate_symmetries (normLinear normAngular : R)
    (o : Odometer) (w : World) :
  let lr := result (translateToLeftRightVelocities normLinear normAngular) o w in
  result (translateToLeftRightVelocities normLinear (- normAngular)) o w
    = (snd lr, fst lr) /\
  result (translateToLeftRightVelocities (- normLinear) (- normAngular)) o w
    = ((- fst lr)%R, (- snd lr)%R).
Proof.
  unfold result, translateToLeftRightVelocities, ret. cbn [fst snd].
  split.
  - f_equal; f_equal; lra.
  - rewrite <- !constrain_odd. f_equal; f_equal; lra.
Qed.

(** ** [setup] with a valid configuration, and the clock *)

(** X18.  For a wheel with a positive diameter and an encoder with a
    positive number of counts per revolution, [setup] stores a positive
    distance per count; the direction factor it stores is 1 or -1. *)
Theorem setup_valid_calibration (inEncoder : array nat)
    (isEncoderForward : array bool) (inWheelDiameter : array R)
    (inTrackWidth : R) (o : Odometer) (w : World) (i : index) :
  (0 < inWheelDiameter i)%R ->
  (0 < countsPerRev (encoders w (inEncoder i)))%Z ->
  let o' :=
    self_after (setup inEncoder isEncoderForward inWheelDiameter inTrackWidth)
      o w in
  (0 < distancePerCount o' i)%R /\
  (encodeFactor o' i = 1%Z \/ encodeFactor o' i = (-1)%Z).
Proof.
  intros Hd Hc o'.
  destruct (setup_members inEncoder isEncoderForward inWheelDiameter
              inTrackWidth o w) as (Hslots & _).
  fold o' in Hslots. destruct (Hslots i) as (_ & _ & _ & Hdpc & Hfac).
  split.
  - rewrite Hdpc. apply Rdiv_lt_0_compat.
    + apply Rmult_lt_0_compat; [apply PI_RGT_0 | exact Hd].
    + now apply (IZR_lt 0).
  - rewrite Hfac. destruct (isEncoderForward i); [left | right]; reflexivity.
Qed.

(** X19.  The interval [update] measures survives the roll-over of the
    millisecond clock: when the clock reads the previous timestamp plus
    [e] milliseconds modulo 2^32, with [e] below 2^31, [deltaTime] is
    [e]. *)
Theorem deltaTime_across_rollover (o : Odometer) (w : World) (e : Z) :
  (0 <= e < 2 ^ 31)%Z ->
  now w = to_ulong (previousUpdateTime o + e) ->
  deltaTime o w = e.
Proof.
  intros He Hnow. unfold deltaTime. rewrite Hnow.
  unfold to_ulong, modulus.
  rewrite Zminus_mod_idemp_l.
  replace (previousUpdateTime o + e - previousUpdateTime o)%Z with e by ring.
  rewrite Z.mod_small by lia. apply to_long_small. lia.
Qed.

End Update.

(** * Concrete runs *)

(** The slot of the left wheel is 0 and that of the right wheel is 1 in the
    runs below. *)

(** C4, refuted as stated: a configuration whose left wheel has diameter
    -6.5 is accepted.  The negative diameter and a negative distance per
    count are stored, and the serial port receives the three diagnostic
    values only. *)
Lemma setup_accepts_negative_diameter :
  wheelDiameter
    (self_after (setup bench_slots bench_forward negative_diameters 15)
       bench_odometer (bench_world 0 0 0)) I0 = (-6.5)%R /\
  (distancePerCount
     (self_after (setup bench_slots bench_forward negative_diameters 15)
        bench_odometer (bench_world 0 0 0)) I0 < 0)%R /\
  serial
    (world_after (setup bench_slots bench_forward negative_diameters 15)
       bench_odometer (bench_world 0 0 0))
  = setup_diagnostics ((PI * -6.5) / 360) 15 360.
Proof.
  destruct (setup_members bench_slots bench_forward negative_diameters 15
              bench_odometer (bench_world 0 0 0)) as (Hslots & _).
  destruct (setup_world bench_slots bench_forward negative_diameters 15
              bench_odometer (bench_world 0 0 0)) as (Hout & _).
  destruct (Hslots I0) as (_ & Hd & _ & Hdpc & _).
  split; [exact Hd |]. split; [| exact Hout].
  rewrite Hdpc. cbn.
  pose proof PI_RGT_0. lra.
Qed.


(** C8, on the code: re-initialising the odometer of a robot that was
    turning at 1 rad/s zeroes [vLeft] and [vRight] but leaves [omega] at 1:
    [setup] never assigns [omega]. *)
Theorem setup_leaves_omega_stale :
  vLeft (self_after (setup bench_slots bench_forward bench_diameters 15)
           turning_odometer (bench_world 0 0 0)) = 0%R /\
  vRight (self_after (setup bench_slots bench_forward bench_diameters 15)
            turning_odometer (bench_world 0 0 0)) = 0%R /\
  omega (self_after (setup bench_slots bench_forward bench_diameters 15)
           turning_odometer (bench_world 0 0 0)) = 1%R /\
  omega (self_after (setup bench_slots bench_forward bench_diameters 15)
           turning_odometer (bench_world 0 0 0)) <> 0%R.
Proof.
  destruct (setup_members bench_slots bench_forward bench_diameters 15
              turning_odometer (bench_world 0 0 0))
    as (_ & _ & _ & _ & _ & _ & _ & Hl & Hr & Ho & _).
  rewrite Ho. repeat split; try assumption; try reflexivity.
  change (omega turning_odometer) with 1%R. lra.
Qed.

(** A call of [update] with no time elapsed: the clock still reads 1000. *)
Lemma update_zero_elapsed_time_witness :
  deltaTime bench_odometer (bench_world 120 100 1000) = 0%Z /\
  vLeft (self_after (update I0 I1) bench_odometer (bench_world 120 100 1000))
  = vLeft bench_odometer.
Proof.
  split; [reflexivity |].
  apply (update_zero_elapsed_time I0 I1 bench_odometer (bench_world 120 100 1000)).
  reflexivity.
Defined.

(** A call of [update] that finds the left encoder at 32001. *)
Lemma update_overflow_reset_witness :
  (32000 < leftEncoderCounts I0 bench_odometer (bench_world 32001 100 1020))%Z /\
  previousLeftEncoderCounts
    (self_after (update I0 I1) bench_odometer (bench_world 32001 100 1020))
  = 0%Z.
Proof.
  split; [reflexivity |].
  apply (update_overflow_reset I0 I1 bench_odometer (bench_world 32001 100 1020)).
  left. reflexivity.
Defined.

(** A call of [update] after a long reverse run: both encoders at -40000. *)
Lemma update_no_reset_below_threshold_witness :
  (leftEncoderCounts I0 bench_odometer (bench_world (-40000) (-40000) 1020)
   <= 32000)%Z /\
  previousLeftEncoderCounts
    (self_after (update I0 I1) bench_odometer (bench_world (-40000) (-40000) 1020))
  = (-40000)%Z.
Proof.
  split; [discriminate |].
  apply (update_no_reset_below_threshold I0 I1 bench_odometer
           (bench_world (-40000) (-40000) 1020)); discriminate.
Defined.

(** ** Runs for the further properties *)

Lemma update_velocity_estimate_witness :
  deltaTime bench_odometer (bench_world 120 100 1020) <> 0%Z /\
  omega (self_after (update I0 I1) bench_odometer (bench_world 120 100 1020))
  = ((vRight (self_after (update I0 I1) bench_odometer (bench_world 120 100 1020))
      - vLeft (self_after (update I0 I1) bench_odometer (bench_world 120 100 1020)))
     / trackWidth bench_odometer)%R.
Proof.
  split; [discriminate |].
  apply (@update_velocity_estimate I0 I1 bench_odometer (bench_world 120 100 1020)).
  discriminate.
Defined.

Lemma update_twice_no_motion_witness :
  encoders (world_after (update I0 I1) bench_odometer (bench_world 120 100 1020))
  = encoders (world_after (update I0 I1) bench_odometer (bench_world 120 100 1020)) /\
  deltaLeftTicks I0
    (self_after (update I0 I1) bench_odometer (bench_world 120 100 1020))
    (world_after (update I0 I1) bench_odometer (bench_world 120 100 1020))
  = 0%Z.
Proof.
  split; [reflexivity |].
  apply (@update_twice_no_motion I0 I1 bench_odometer (bench_world 120 100 1020)
           (world_after (update I0 I1) bench_odometer (bench_world 120 100 1020))).
  reflexivity.
Defined.

Lemma calculateGoalHeading_direction_witness :
  result calculateGoalHeading goal_ahead_odometer (bench_world 0 0 1020) = 0%R.
Proof.
  apply (@calculateGoalHeading_direction goal_ahead_odometer
           (bench_world 0 0 1020) 10%R 0%R).
  - lra.
  - pose proof PI_RGT_0. lra.
  - cbn. rewrite cos_0. lra.
  - cbn. rewrite sin_0. lra.
Defined.

Lemma heading_error_zero_when_facing_goal_witness :
  result getNormalizedHeadingErrorToGoal goal_ahead_odometer
    (bench_world 0 0 1020) = 0%R.
Proof.
  apply (@heading_error_zero_when_facing_goal goal_ahead_odometer
           (bench_world 0 0 1020) 10%R).
  - lra.
  - cbn. rewrite cos_0. lra.
  - cbn. rewrite sin_0. lra.
Defined.

Lemma heading_error_reduced_difference_witness :
  result (getNormalizedHeadingError (2 * PI)) bench_odometer (bench_world 0 0 1020)
  = ((heading bench_odometer - 2 * PI + 2 * IZR 1 * PI) / PI)%R.
Proof.
  apply (@heading_error_reduced_difference bench_odometer (bench_world 0 0 1020)
           (2 * PI)%R 1%Z).
  cbn. pose proof PI_RGT_0. lra.
Defined.

Lemma update_straight_line_witness :
  heading (self_after (update I0 I1) bench_odometer (bench_world 100 100 1020))
  = heading bench_odometer.
Proof.
  apply (@update_straight_line I0 I1 bench_odometer (bench_world 100 100 1020)).
  - reflexivity.
  - cbn. pose proof PI_RGT_0. lra.
Defined.

Lemma update_turn_in_place_witness :
  X (self_after (update I0 I1) bench_odometer (bench_world (-100) 100 1020))
  = X bench_odometer.
Proof.
  apply (@update_turn_in_place I0 I1 bench_odometer (bench_world (-100) 100 1020)).
  unfold deltaDistanceLeft, deltaDistanceRight.
  change (deltaLeftTicks I0 bench_odometer (bench_world (-100) 100 1020))
    with (-100)%Z.
  change (deltaRightTicks I1 bench_odometer (bench_world (-100) 100 1020))
    with 100%Z.
  cbn [distancePerCount bench_odometer]. lra.
Defined.

Lemma update_linear_velocity_consistent_witness :
  deltaTime bench_odometer (bench_world 120 100 1020) <> 0%Z /\
  result getLinearVelocity
    (self_after (update I0 I1) bench_odometer (bench_world 120 100 1020))
    (world_after (update I0 I1) bench_odometer (bench_world 120 100 1020))
  = (0.5 * (deltaDistanceLeft I0 bench_odometer (bench_world 120 100 1020)
            + deltaDistanceRight I1 bench_odometer (bench_world 120 100 1020))
     * 1000 / IZR (deltaTime bench_odometer (bench_world 120 100 1020)))%R.
Proof.
  split; [discriminate |].
  apply (@update_linear_velocity_consistent I0 I1 bench_odometer
           (bench_world 120 100 1020)).
  discriminate.
Defined.

Lemma update_approaches_goal_witness :
  result getDistanceToGoal
    (self_after (update I0 I1) goal_ahead_odometer (bench_world 100 100 1020))
    (world_after (update I0 I1) goal_ahead_odometer (bench_world 100 100 1020))
  = (10 - deltaDistanceLeft I0 goal_ahead_odometer (bench_world 100 100 1020))%R.
Proof.
  apply (@update_approaches_goal I0 I1 goal_ahead_odometer
           (bench_world 100 100 1020) 10%R).
  - reflexivity.
  - unfold deltaDistanceLeft.
    change (deltaLeftTicks I0 goal_ahead_odometer (bench_world 100 100 1020))
      with 100%Z.
    change (distancePerCount goal_ahead_odometer I0) with ((PI * 6.5) / 360)%R.
    pose proof PI_RGT_0. pose proof PI_4. lra.
  - cbn. rewrite cos_0. lra.
  - cbn. rewrite sin_0. lra.
Defined.

Lemma translate_round_trip_witness :
  ((fst (result (translateToLeftRightVelocities 0.5 0.25) bench_odometer
           (bench_world 0 0 1020))
    + snd (result (translateToLeftRightVelocities 0.5 0.25) bench_odometer
             (bench_world 0 0 1020))) / 2 = 0.5)%R.
Proof.
  apply (@translate_round_trip 0.5%R 0.25%R bench_odometer (bench_world 0 0 1020));
    lra.
Defined.

Lemma setup_valid_calibration_witness :
  (0 < distancePerCount
         (self_after (setup bench_slots bench_forward bench_diameters 15)
            bench_odometer (bench_world 0 0 0)) I0)%R.
Proof.
  apply (@setup_valid_calibration bench_slots bench_forward bench_diameters 15%R
           bench_odometer (bench_world 0 0 0) I0).
  - unfold bench_diameters. lra.
  - reflexivity.
Defined.

Lemma deltaTime_across_rollover_witness :
  now (bench_world 0 0 14) = to_ulong (previousUpdateTime late_odometer + 20) /\
  deltaTime late_odometer (bench_world 0 0 14) = 20%Z.
Proof.
  split; [reflexivity |].
  apply (@deltaTime_across_rollover late_odometer (bench_world 0 0 14) 20%Z).
  - split; [discriminate | reflexivity].
  - reflexivity.
Defined.
